(** * The dashboard loader and the theme preference of [src/App.js]

    A shallow embedding of the [App] component: the values a JSON payload
    parses to, the promise chain of the fetch effect (lines 36-58), the
    theme initialiser, effect and toggle (lines 21-27, 61-67) and the
    branching of the render function (lines 84-127, 164-169).

    Conventions.
    - A JavaScript string is the list of its UTF-16 code units.
    - A JavaScript number is an IEEE 754 double: a primitive float.
    - Code that can throw returns a [completion]; code that updates the
      React state or the browser around it runs in the monad [M], in which
      the updates made before a throw stay in place, as they do in
      JavaScript.
    - [fetch], [res.json()], [localStorage] and React itself are the
      browser's and the library's: what they hand to the component is an
      input of the model ([fetch_outcome], [storage]). *)

From Stdlib Require Import String Ascii DecimalString NArith Arith Bool PrimFloat Lia List.
Import ListNotations.

Set Warnings "-register-all,-inexact-float".

(** ** Strings *)

Definition jsstring := list N.

(** The code units of an ASCII literal of the source. *)
Definition js (s : string) : jsstring :=
  map N_of_ascii (list_ascii_of_string s).

(** [a === b] on strings. *)
Fixpoint str_eqb (a b : jsstring) : bool :=
  match a, b with
  | [], [] => true
  | x :: a', y :: b' => N.eqb x y && str_eqb a' b'
  | _, _ => false
  end.

(** The canonical decimal spelling of an array index, as a property key. *)
Definition index_key (i : nat) : jsstring :=
  js (NilEmpty.string_of_uint (Nat.to_uint i)).

(** ** Values *)

(** What [JSON.parse] can produce, and [undefined], which reading an absent
    property produces.  The properties of an object are listed in the order
    in which the engine enumerates them, with distinct keys. *)
Inductive value : Type :=
| VUndefined
| VNull
| VBool (b : bool)
| VNum (x : float)
| VStr (s : jsstring)
| VArr (items : list value)
| VObj (props : list (jsstring * value)).

(** ToBoolean. *)
Definition truthy (v : value) : bool :=
  match v with
  | VUndefined | VNull => false
  | VBool b => b
  | VNum x => negb (PrimFloat.eqb x 0%float) && PrimFloat.eqb x x
  | VStr s => match s with [] => false | _ => true end
  | VArr _ | VObj _ => true
  end.

Definition nullish (v : value) : bool :=
  match v with
  | VUndefined | VNull => true
  | _ => false
  end.

(** ** Exceptions *)

Inductive thrown : Type :=
| ErrorObj (message : jsstring)   (* new Error(message) *)
| TypeError                       (* raised by the engine *)
| SyntaxError                     (* a body that is not JSON *)
| NetworkError                    (* a fetch or a body read that failed *)
| DOMException (name : jsstring)  (* raised by the storage API *)
| InvalidChild.                   (* React: an object is no valid child *)

Inductive completion (A : Type) : Type :=
| Normal (a : A)
| Throw (e : thrown).

Arguments Normal {A} a.
Arguments Throw {A} e.

Definition cbind {A B} (c : completion A) (k : A -> completion B) : completion B :=
  match c with
  | Normal a => k a
  | Throw e => Throw e
  end.

Declare Scope comp_scope.
Delimit Scope comp_scope with comp.
Notation "x <-- c ; k" := (cbind c (fun x => k))
  (at level 61, c at next level, right associativity) : comp_scope.

(** ** Property access *)

Fixpoint lookup (k : jsstring) (props : list (jsstring * value)) : value :=
  match props with
  | [] => VUndefined
  | (k', v) :: rest => if str_eqb k k' then v else lookup k rest
  end.

(** The own enumerable properties of a value, in enumeration order: those
    of an object, the elements of an array under their indices, the code
    units of a string under theirs; a number or a boolean has none. *)
Definition own_props (v : value) : list (jsstring * value) :=
  match v with
  | VObj props => props
  | VArr items => combine (map index_key (seq 0 (length items))) items
  | VStr s => combine (map index_key (seq 0 (length s))) (map (fun c => VStr [c]) s)
  | _ => []
  end.

(** [v.k] and [v[k]].  Reading a property of [null] or [undefined] throws;
    on anything else an absent property reads as [undefined].  Only own
    properties are looked up, which is exact for every key the component
    reads: none of [summary], [accident_by_time], [Var1], [Freq],
    [rowsLoaded], [rowsUsed], [trainedSamples], [featureVectorLength],
    [numericStats], [mean], [sd] is inherited from a prototype, and the
    computed keys come from [Object.keys]. *)
Definition get (v : value) (k : jsstring) : completion value :=
  if nullish v then Throw TypeError else Normal (lookup k (own_props v)).

(** [Object.keys(v)]. *)
Definition object_keys (v : value) : completion (list jsstring) :=
  if nullish v then Throw TypeError else Normal (map fst (own_props v)).

(** ** The component's state and its surroundings *)

(** An element of [chartData] (lines 45-48). *)
Record point : Type := mkPoint { time : value; accidents : value }.

(** The five [useState] cells (lines 21-33). *)
Record state : Type := mkState {
  theme : jsstring;
  data : list point;
  summary : value;
  loading : bool;
  error : jsstring
}.

(** The entry of [localStorage] under the key ["theme"], and whether the
    store refuses to be read or written (and with what). *)
Record storage : Type := mkStorage {
  stored : option jsstring;
  read_failure : option thrown;
  write_failure : option thrown
}.

(** What the component touches outside its state: the console, the
    [dark-mode] class of [document.body], and [localStorage]. *)
Record environ : Type := mkEnviron {
  console : list thrown;
  dark_mode : bool;
  localStorage : storage
}.

Record world : Type := mkWorld { app : state; env : environ }.

(** ** Effects *)

Definition M (A : Type) : Type := world -> world * completion A.

Definition ret {A} (a : A) : M A := fun w => (w, Normal a).

Definition bind {A B} (m : M A) (k : A -> M B) : M B :=
  fun w =>
    match m w with
    | (w', Normal a) => k a w'
    | (w', Throw e) => (w', Throw e)
    end.

Definition lift {A} (c : completion A) : M A := fun w => (w, c).

(** [m.catch(handler)], and [try { m } catch (e) { handler(e) }]. *)
Definition catch {A} (m : M A) (handler : thrown -> M A) : M A :=
  fun w =>
    match m w with
    | (w', Normal a) => (w', Normal a)
    | (w', Throw e) => handler e w'
    end.

Declare Scope m_scope.
Delimit Scope m_scope with M.
Notation "x <- m ;; k" := (bind m (fun x => k))
  (at level 61, m at next level, right associativity) : m_scope.
Notation "m ;; k" := (bind m (fun _ => k))
  (at level 61, right associativity) : m_scope.

Definition update (f : state -> state) : M unit :=
  fun w => (mkWorld (f (app w)) (env w), Normal tt).

Definition setTheme (f : jsstring -> jsstring) : M unit :=
  update (fun s => mkState (f (theme s)) (data s) (summary s) (loading s) (error s)).
Definition setData (d : list point) : M unit :=
  update (fun s => mkState (theme s) d (summary s) (loading s) (error s)).
Definition setSummary (v : value) : M unit :=
  update (fun s => mkState (theme s) (data s) v (loading s) (error s)).
Definition setLoading (b : bool) : M unit :=
  update (fun s => mkState (theme s) (data s) (summary s) b (error s)).
Definition setError (e : jsstring) : M unit :=
  update (fun s => mkState (theme s) (data s) (summary s) (loading s) e).

Definition console_error (e : thrown) : M unit :=
  fun w =>
    (mkWorld (app w)
       (mkEnviron (console (env w) ++ [e]) (dark_mode (env w)) (localStorage (env w))),
     Normal tt).

(** ** The fetch effect (lines 36-58) *)

(** A response as the chain reads it: [res.ok], and what [res.json()]
    settles to. *)
Record response : Type := mkResponse { ok : bool; json : completion value }.

(** What [fetch("/dashboard_data.json")] settles to. *)
Inductive fetch_outcome : Type :=
| Rejected (reason : thrown)
| Resolved (res : response).

Definition load_error_message : jsstring :=
  [0x26A0; 0xFE0F]%N   (* U+26A0 WARNING SIGN, U+FE0F VARIATION SELECTOR-16 *)
  ++ js " Unable to load dashboard_data.json. Please check the file path.".

(** Lines 38-41. *)
Definition on_response (res : response) : completion value :=
  if negb (ok res)
  then Throw (ErrorObj (js "Failed to load dashboard_data.json"))
  else json res.

Fixpoint mapM {A B} (f : A -> completion B) (l : list A) : completion (list B) :=
  match l with
  | [] => Normal []
  | a :: rest =>
      (b <-- f a ; bs <-- mapM f rest ; Normal (b :: bs))%comp
  end.

(** [v.map(f)] where [v] is truthy: only an array has a callable [map]. *)
Definition array_map {B} (f : value -> completion B) (v : value) : completion (list B) :=
  match v with
  | VArr items => mapM f items
  | _ => Throw TypeError
  end.

(** Lines 45-48. *)
Definition to_point (item : value) : completion point :=
  (t <-- get item (js "Var1") ;
   a <-- get item (js "Freq") ;
   Normal (mkPoint t a))%comp.

(** Lines 42-52. *)
Definition on_json (payload : value) : M unit :=
  (s <- lift (get payload (js "summary")) ;;
   setSummary s ;;
   abt <- lift (get payload (js "accident_by_time")) ;;
   (if truthy abt
    then chartData <- lift (array_map to_point abt) ;; setData chartData
    else ret tt) ;;
   setLoading false)%M.

(** Lines 53-57. *)
Definition on_failure (err : thrown) : M unit :=
  (console_error err ;;
   setError load_error_message ;;
   setLoading false)%M.

(** The chain [fetch(..).then(..).then(..).catch(..)], run on the outcome
    of the fetch. *)
Definition fetch_chain (o : fetch_outcome) : M unit :=
  catch
    (payload <- lift (match o with
                      | Rejected reason => Throw reason
                      | Resolved res => on_response res
                      end) ;;
     on_json payload)%M
    on_failure.

(** ** The theme preference (lines 21-27, 61-67) *)

(** [localStorage.getItem("theme")]: the stored string, or [null] ([None])
    when the key is absent. *)
Definition getItem (st : storage) : completion (option jsstring) :=
  match read_failure st with
  | Some e => Throw e
  | None => Normal (stored st)
  end.

(** [localStorage.setItem("theme", v)]. *)
Definition setItem (v : jsstring) (st : storage) : completion storage :=
  match write_failure st with
  | Some e => Throw e
  | None => Normal (mkStorage (Some v) (read_failure st) (write_failure st))
  end.

(** [x || "light"] where [x] is a string or [null]. *)
Definition or_light (x : option jsstring) : jsstring :=
  match x with
  | Some s => if truthy (VStr s) then s else js "light"
  | None => js "light"
  end.

(** The initialiser of the theme cell (lines 21-27). *)
Definition initial_theme (st : storage) : jsstring :=
  match getItem st with
  | Normal x => or_light x
  | Throw _ => js "light"
  end.

(** The state of the first render (lines 21-33). *)
Definition initial_state (st : storage) : state :=
  mkState (initial_theme st) [] VNull true [].

(** The updater of line 67. *)
Definition toggle (t : jsstring) : jsstring :=
  if str_eqb t (js "light") then js "dark" else js "light".

Definition toggleTheme : M unit := setTheme toggle.

(** The theme effect (lines 61-64): no [try] around either statement. *)
Definition theme_effect : M unit :=
  fun w =>
    let e := env w in
    let t := theme (app w) in
    let e1 := mkEnviron (console e) (str_eqb t (js "dark")) (localStorage e) in
    match setItem t (localStorage e1) with
    | Normal st' => (mkWorld (app w) (mkEnviron (console e1) (dark_mode e1) st'), Normal tt)
    | Throw ex => (mkWorld (app w) e1, Throw ex)
    end.

(** ** Rendering (lines 71-227) *)

(** The three branches of lines 84-88, as the variant they stand for. *)
Inductive LoadState : Type :=
| Loading
| Error (message : jsstring)
| Ready (summ : value) (series : list point).

Definition load_state (s : state) : LoadState :=
  if loading s then Loading
  else if truthy (VStr (error s)) then Error (error s)
  else Ready (summary s) (data s).

(** [v?.k]. *)
Definition optional_get (v : value) (k : jsstring) : value :=
  if nullish v then VUndefined else lookup k (own_props v).

(** [v ?? d]. *)
Definition coalesce (v d : value) : value :=
  if nullish v then d else v.

(** The child of a stat card: [summary?.k ?? "-"] (lines 96-108). *)
Definition stat_card (summ : value) (k : jsstring) : value :=
  coalesce (optional_get summ k) (VStr (js "-")).

Definition has_key (k : jsstring) (props : list (jsstring * value)) : bool :=
  existsb (fun kv => str_eqb k (fst kv)) props.

(** The values [Number(v)] throws a [TypeError] on.  ToPrimitive asks an
    object for [valueOf], then [toString].  On a parsed object the
    inherited [valueOf] returns the object itself and an own [valueOf] is
    no function, so it comes down to [toString]: the inherited one returns
    a string, an own one is no function and leaves nothing to call.  An
    array is joined, each element but [null] converted to a string in the
    same way.  Every other value converts. *)
Fixpoint unconvertible (v : value) : bool :=
  match v with
  | VObj props => has_key (js "toString") props
  | VArr items => existsb unconvertible items
  | _ => false
  end.

(** The string [Number(v).toFixed(2)], kept as the value it spells: the
    number [v] converts to and its two decimals are the engine's. *)
Inductive fixed2 : Type :=
| Fixed2 (arg : value).

(** [Number(v).toFixed(2)] (lines 121-122): the conversion can throw,
    [toFixed(2)] cannot. *)
Definition Number_toFixed (v : value) : completion fixed2 :=
  if unconvertible v then Throw TypeError else Normal (Fixed2 v).

(** One entry of the numeric grid (lines 118-124): the key and the two
    formatted numbers. *)
Definition numeric_row (summ : value) (k : jsstring) : completion (jsstring * fixed2 * fixed2) :=
  (ns <-- get summ (js "numericStats") ;
   entry <-- get ns k ;
   m <-- get entry (js "mean") ;
   mean <-- Number_toFixed m ;
   ns' <-- get summ (js "numericStats") ;
   entry' <-- get ns' k ;
   s <-- get entry' (js "sd") ;
   sd <-- Number_toFixed s ;
   Normal (k, mean, sd))%comp.

(** What [summary && Object.keys(summary.numericStats).map(..)] evaluates
    to (lines 116-125): a falsy [summary] itself, or the entries. *)
Inductive numeric_section : Type :=
| NoStats (child : value)
| Stats (rows : list (jsstring * fixed2 * fixed2)).

Definition numeric_stats (summ : value) : completion numeric_section :=
  if truthy summ
  then (ns <-- get summ (js "numericStats") ;
        keys <-- object_keys ns ;
        rows <-- mapM (numeric_row summ) keys ;
        Normal (Stats rows))%comp
  else Normal (NoStats summ).

Definition COLORS : list jsstring :=
  [js "#0088FE"; js "#f91ea5"; js "#FFBB28"; js "#ff9a42"].

(** The fills of the pie cells (lines 164-169). *)
Definition cell_fills (d : list point) : list jsstring :=
  map (fun index => nth (Nat.modulo index (length COLORS)) COLORS []) (seq 0 (length d)).

(** What [<main>] shows.  The children of the cards and the rows of the
    grid are the values handed to React; the charts get [data] as it is. *)
Inductive view : Type :=
| LoadingView
| ErrorView (message : jsstring)
| Dashboard (cards : list value) (numeric : numeric_section)
            (chart : list point) (fills : list jsstring).

Definition render_main (s : state) : completion view :=
  if loading s then Normal LoadingView
  else if truthy (VStr (error s)) then Normal (ErrorView (error s))
  else
    (let cards := [stat_card (summary s) (js "rowsLoaded");
                   stat_card (summary s) (js "rowsUsed");
                   stat_card (summary s) (js "trainedSamples");
                   stat_card (summary s) (js "featureVectorLength")] in
     numeric <-- numeric_stats (summary s) ;
     Normal (Dashboard cards numeric (data s) (cell_fills (data s))))%comp.

(** What React accepts as a child: not an object; an array when each of
    its elements is accepted; everything else (a string and a number are
    shown, a boolean, [null] and [undefined] are skipped). *)
Fixpoint valid_child (v : value) : bool :=
  match v with
  | VObj _ => false
  | VArr items => forallb valid_child items
  | _ => true
  end.

(** The children of [<main>] that are values of the payload: the children
    of the four cards, and the falsy [summary] standing for the grid.  The
    rows of the grid are strings; the charts are the chart library's. *)
Definition payload_children (v : view) : list value :=
  match v with
  | Dashboard cards numeric _ _ =>
      cards ++ match numeric with
               | NoStats child => [child]
               | Stats _ => []
               end
  | _ => []
  end.

(** What is displayed: what [App] returns, if it returns and React accepts
    its children.  What the chart library draws from [data] is outside
    the model. *)
Definition displayed (s : state) : completion view :=
  (v <-- render_main s ;
   if forallb valid_child (payload_children v) then Normal v else Throw InvalidChild)%comp.

(** The label of the theme button (line 76). *)
Definition button_label (t : jsstring) : jsstring :=
  if str_eqb t (js "light")
  then [0xD83C; 0xDF19]%N ++ js " Dark Mode"    (* U+1F319 *)
  else [0x2600; 0xFE0F]%N ++ js " Light Mode".  (* U+2600 U+FE0F *)

Definition render (s : state) : completion (jsstring * view) :=
  (v <-- render_main s ; Normal (button_label (theme s), v))%comp.

(** ** The component over time *)

(** The component after its first commit: its state and surroundings, and
    whether the promise of the fetch is still to settle.  The fetch effect
    has no dependencies (line 58): it runs once for a mount, and the model
    is of one mount. *)
Record config : Type := mkConfig { now : world; pending : bool }.

(** Mounting: the first render, then the two effects in order; the fetch
    is issued, the theme is applied and stored.  An effect that throws
    takes the component down. *)
Definition mount (e : environ) : completion config :=
  match theme_effect (mkWorld (initial_state (localStorage e)) e) with
  | (w, Normal _) => Normal (mkConfig w true)
  | (_, Throw ex) => Throw ex
  end.

Inductive event : Type :=
| Settled (o : fetch_outcome)   (* the promise of the fetch settles *)
| Click.                        (* the theme button is clicked *)

(** A click runs the updater, and, the theme having changed (the updater
    never returns its argument), the theme effect after the re-render. *)
Definition on_click : M unit := (toggleTheme ;; theme_effect)%M.

(** The events the mounted component handles.  A promise settles once.  A
    render that throws takes the component down as well; [Step] does not
    look at the render, so it allows every step the component can make. *)
Inductive Step : config -> event -> config -> Prop :=
| step_settled : forall c o w r,
    pending c = true ->
    fetch_chain o (now c) = (w, r) ->
    Step c (Settled o) (mkConfig w false)
| step_click : forall c w,
    on_click (now c) = (w, Normal tt) ->
    Step c Click (mkConfig w (pending c)).

Inductive reachable : config -> Prop :=
| reach_mount : forall e c, mount e = Normal c -> reachable c
| reach_step : forall c ev c', reachable c -> Step c ev c' -> reachable c'.

(** The state the chain leaves, started from state [s]. *)
Definition load (o : fetch_outcome) (w : world) : state :=
  app (fst (fetch_chain o w)).

(** ** Vocabulary of the statements *)

(** The four cells of the loader as [useState] initialised them. *)
Definition fresh (s : state) : Prop :=
  data s = [] /\ summary s = VNull /\ loading s = true /\ error s = [].

(** The point lines 45-48 build from an item that is not [null]. *)
Definition point_of (item : value) : point :=
  mkPoint (lookup (js "Var1") (own_props item)) (lookup (js "Freq") (own_props item)).

(** The payloads the second handler reads without throwing: not [null],
    and [accident_by_time] falsy or an array without [null] elements. *)
Definition reads_cleanly (payload : value) : bool :=
  negb (nullish payload) &&
  (let abt := lookup (js "accident_by_time") (own_props payload) in
   negb (truthy abt) ||
   match abt with
   | VArr items => forallb (fun item => negb (nullish item)) items
   | _ => false
   end).

(** The series a cleanly read payload leaves: the points of its array, or
    the series as it was when [accident_by_time] is falsy. *)
Definition series_after (payload : value) (before : list point) : list point :=
  match lookup (js "accident_by_time") (own_props payload) with
  | VArr items => map point_of items
  | _ => before
  end.

(** The outcomes after which the chain ends in its second handler. *)
Definition settles_ready (o : fetch_outcome) : bool :=
  match o with
  | Resolved res =>
      ok res && match json res with
                | Normal payload => reads_cleanly payload
                | Throw _ => false
                end
  | Rejected _ => false
  end.

(** The failures of the transport and of the parse. *)
Definition transport_or_parse_failure (o : fetch_outcome) : bool :=
  match o with
  | Rejected _ => true
  | Resolved res =>
      negb (ok res) || match json res with
                       | Normal _ => false
                       | Throw _ => true
                       end
  end.

(** A 200 response whose body parses to [payload]. *)
Definition served (payload : value) : fetch_outcome :=
  Resolved (mkResponse true (Normal payload)).

(** The three variants as conditions on the two flags the render branches
    on (lines 32-33, 84-88). *)
Definition in_Loading (s : state) : Prop := loading s = true.
Definition in_Error (s : state) : Prop := loading s = false /\ error s <> [].
Definition in_Ready (s : state) : Prop := loading s = false /\ error s = [].

Definition one_variant (s : state) : Prop :=
  (in_Loading s /\ ~ in_Error s /\ ~ in_Ready s) \/
  (~ in_Loading s /\ in_Error s /\ ~ in_Ready s) \/
  (~ in_Loading s /\ ~ in_Error s /\ in_Ready s).

(** Any number of steps. *)
Inductive Steps : config -> config -> Prop :=
| steps_none : forall c, Steps c c
| steps_more : forall c ev c' c'', Step c ev c' -> Steps c' c'' -> Steps c c''.

(** What holds of the loader's cells while the fetch is pending, and after. *)
Definition invariant (c : config) : Prop :=
  if pending c then fresh (app (now c)) else loading (app (now c)) = false.

(** ** Sample inputs *)

Definition record (t : string) (f : float) : value :=
  VObj [(js "Var1", VStr (js t)); (js "Freq", VNum f)].

Definition sample_summary : value :=
  VObj [(js "rowsLoaded", VNum 100); (js "rowsUsed", VNum 90);
        (js "trainedSamples", VNum 80); (js "featureVectorLength", VNum 12);
        (js "numericStats",
         VObj [(js "speed", VObj [(js "mean", VNum 45.2); (js "sd", VNum 5.1)])])].

Definition sample_records : list value :=
  [record "Morning" 10; record "Evening" 25].

(** The example of the specification, section 8. *)
Definition sample_payload : value :=
  VObj [(js "summary", sample_summary);
        (js "accident_by_time", VArr sample_records)].

(** [{"summary": {..}}]. *)
Definition payload_without_series : value :=
  VObj [(js "summary", sample_summary)].

(** [{"summary": {..}, "accident_by_time": {"Morning": 10}}]. *)
Definition payload_with_object_series : value :=
  VObj [(js "summary", sample_summary);
        (js "accident_by_time", VObj [(js "Morning", VNum 10)])].

(** [{"summary": {"rowsLoaded": 100}}]. *)
Definition payload_without_numericStats : value :=
  VObj [(js "summary", VObj [(js "rowsLoaded", VNum 100)])].

Definition empty_store : storage := mkStorage None None None.

Definition store_holding (s : string) : storage := mkStorage (Some (js s)) None None.

(** A store that answers reads with [null] and refuses every write. *)
Definition full_store : storage :=
  mkStorage None None (Some (DOMException (js "QuotaExceededError"))).

(** A store that refuses reads and writes alike. *)
Definition denied_store : storage :=
  mkStorage None (Some (DOMException (js "SecurityError")))
            (Some (DOMException (js "SecurityError"))).

Definition browser (st : storage) : environ := mkEnviron [] false st.

(** The world of the first render in a browser with store [st]. *)
Definition first_world (st : storage) : world :=
  mkWorld (initial_state st) (browser st).

(** The component mounted in a browser with a working store [st]. *)
Definition mounted (st : storage) : config :=
  mkConfig (fst (theme_effect (first_world st))) true.

(** ** Further vocabulary *)

(** What the catch handler hands to [console.error] (line 54), if the
    chain gets there. *)
Definition logged_cause (o : fetch_outcome) : option thrown :=
  match o with
  | Rejected reason => Some reason
  | Resolved res =>
      if negb (ok res)
      then Some (ErrorObj (js "Failed to load dashboard_data.json"))
      else match json res with
           | Throw e => Some e
           | Normal payload => if reads_cleanly payload then None else Some TypeError
           end
  end.

(** A key that does not start with a decimal digit: none of the index
    keys of an array or of a string. *)
Definition named_key (k : jsstring) : bool :=
  match k with
  | [] => true
  | c :: _ => negb ((48 <=? c)%N && (c <=? 57)%N)
  end.

Definition is_object (v : value) : bool :=
  match v with
  | VObj _ => true
  | _ => false
  end.

Definition is_array (v : value) : bool :=
  match v with
  | VArr _ => true
  | _ => false
  end.

(** The row of the numeric grid under key [k] of [ns], when the entry is
    not [null]. *)
Definition numeric_row_of (ns : value) (k : jsstring) : jsstring * fixed2 * fixed2 :=
  (k,
   Fixed2 (lookup (js "mean") (own_props (lookup k (own_props ns)))),
   Fixed2 (lookup (js "sd") (own_props (lookup k (own_props ns))))).

(** The entries of [numericStats] a row can be made of: not [null], with a
    [mean] and an [sd] that [Number] converts. *)
Definition entry_formats (entry : value) : bool :=
  negb (nullish entry) &&
  negb (unconvertible (lookup (js "mean") (own_props entry))) &&
  negb (unconvertible (lookup (js "sd") (own_props entry))).

(** The summaries whose numeric grid lines 117-125 evaluate without
    throwing: [numericStats] is there and each of its entries formats. *)
Definition grid_enumerable (summ : value) : bool :=
  let ns := lookup (js "numericStats") (own_props summ) in
  negb (nullish ns) &&
  forallb (fun k => entry_formats (lookup k (own_props ns))) (map fst (own_props ns)).

(** The children of the four stat cards (lines 96-108). *)
Definition cards_of (summ : value) : list value :=
  [stat_card summ (js "rowsLoaded");
   stat_card summ (js "rowsUsed");
   stat_card summ (js "trainedSamples");
   stat_card summ (js "featureVectorLength")].

Definition in_enum (t : jsstring) : Prop := t = js "light" \/ t = js "dark".

(** The store and the class of the body agree with the theme cell. *)
Definition synced (c : config) : Prop :=
  stored (localStorage (env (now c))) = Some (theme (app (now c))) /\
  dark_mode (env (now c)) = str_eqb (theme (app (now c))) (js "dark") /\
  write_failure (localStorage (env (now c))) = None /\
  theme (app (now c)) <> [].

(** [{"summary": {..}, "accident_by_time": [{..}, null]}]. *)
Definition payload_with_null_item : value :=
  VObj [(js "summary", sample_summary);
        (js "accident_by_time", VArr [record "Morning" 10; VNull])].

(** [{"accident_by_time": [1, "x", true]}]. *)
Definition payload_with_scalar_items : value :=
  VObj [(js "accident_by_time", VArr [VNum 1; VStr (js "x"); VBool true])].

(** [{"numericStats": {"speed": {"mean": {"toString": 1}, "sd": 2}}}], as
    a summary. *)
Definition summary_with_unconvertible_mean : value :=
  VObj [(js "numericStats",
         VObj [(js "speed",
                VObj [(js "mean", VObj [(js "toString", VNum 1)]);
                      (js "sd", VNum 2)])])].

(** [{"rowsLoaded": {"n": 100}, "numericStats": {}}], as a summary. *)
Definition summary_with_object_field : value :=
  VObj [(js "rowsLoaded", VObj [(js "n", VNum 100)]);
        (js "numericStats", VObj [])].


(** [{"numericStats": {"speed": null}}], as a summary. *)
Definition summary_with_null_entry : value :=
  VObj [(js "numericStats", VObj [(js "speed", VNull)])].

(** The two labels of the theme button (line 76). *)
Definition dark_mode_label : jsstring := [0xD83C; 0xDF19]%N ++ js " Dark Mode".
Definition light_mode_label : jsstring := [0x2600; 0xFE0F]%N ++ js " Light Mode".

(** * Properties *)

(** ** Strings and the monad *)

Lemma str_eqb_eq : forall a b, str_eqb a b = true <-> a = b.
Proof.
  induction a as [|x a IH]; destruct b as [|y b]; simpl; split;
    try congruence; try discriminate.
  - rewrite andb_true_iff, N.eqb_eq, IH. intros [-> ->]. reflexivity.
  - intros E. injection E as -> ->. rewrite N.eqb_refl. simpl. apply IH. reflexivity.
Qed.

Lemma str_eqb_refl : forall a, str_eqb a a = true.
Proof. intros a. apply str_eqb_eq. reflexivity. Qed.

Lemma str_eqb_neq : forall a b, a <> b -> str_eqb a b = false.
Proof.
  intros a b H. destruct (str_eqb a b) eqn:E; [|reflexivity].
  apply str_eqb_eq in E. contradiction.
Qed.

(** ** The chain: one equation per kind of outcome *)

Lemma chain_rejected : forall reason w,
  fetch_chain (Rejected reason) w = on_failure reason w.
Proof. reflexivity. Qed.

Lemma chain_not_ok : forall body w,
  fetch_chain (Resolved (mkResponse false body)) w
  = on_failure (ErrorObj (js "Failed to load dashboard_data.json")) w.
Proof. reflexivity. Qed.

Lemma chain_unparsed : forall e w,
  fetch_chain (Resolved (mkResponse true (Throw e))) w = on_failure e w.
Proof. reflexivity. Qed.

Lemma chain_parsed : forall payload w,
  fetch_chain (served payload) w = catch (on_json payload) on_failure w.
Proof.
  intros payload w. unfold fetch_chain, served, catch, bind, lift. simpl.
  reflexivity.
Qed.

Lemma outcome_cases : forall o,
  (exists reason, o = Rejected reason) \/
  (exists body, o = Resolved (mkResponse false body)) \/
  (exists e, o = Resolved (mkResponse true (Throw e))) \/
  (exists payload, o = served payload).
Proof.
  intros [reason | [[|] [payload | e]]]; unfold served; eauto 6.
Qed.

(** The catch handler changes [error] and [loading] and nothing else of the
    state. *)
Lemma on_failure_app : forall e w,
  app (fst (on_failure e w))
  = mkState (theme (app w)) (data (app w)) (summary (app w)) false load_error_message.
Proof. reflexivity. Qed.

Lemma on_failure_env : forall e w,
  env (fst (on_failure e w))
  = mkEnviron (console (env w) ++ [e]) (dark_mode (env w)) (localStorage (env w)).
Proof. reflexivity. Qed.

(** ** The second handler *)

Lemma mapM_to_point_clean : forall items,
  forallb (fun item => negb (nullish item)) items = true ->
  mapM to_point items = Normal (map point_of items).
Proof.
  induction items as [|item items IH]; simpl; intros H; [reflexivity|].
  apply andb_true_iff in H as [Hi Hs].
  unfold to_point at 1, get. apply negb_true_iff in Hi. rewrite Hi. simpl.
  rewrite (IH Hs). reflexivity.
Qed.

Lemma mapM_to_point_null : forall items,
  forallb (fun item => negb (nullish item)) items = false ->
  mapM to_point items = Throw TypeError.
Proof.
  induction items as [|item items IH]; simpl; intros H; [discriminate|].
  unfold to_point at 1, get. destruct (nullish item); simpl; [reflexivity|].
  simpl in H. rewrite (IH H). reflexivity.
Qed.

(** What the second handler does, case by case. *)
Lemma on_json_run : forall payload w,
  on_json payload w =
  if nullish payload then (w, Throw TypeError)
  else
    let s := app w in
    let summ := lookup (js "summary") (own_props payload) in
    let abt := lookup (js "accident_by_time") (own_props payload) in
    if truthy abt
    then match array_map to_point abt with
         | Normal d => (mkWorld (mkState (theme s) d summ false (error s)) (env w), Normal tt)
         | Throw e => (mkWorld (mkState (theme s) (data s) summ (loading s) (error s)) (env w), Throw e)
         end
    else (mkWorld (mkState (theme s) (data s) summ false (error s)) (env w), Normal tt).
Proof.
  intros payload w. unfold on_json, bind, lift, get.
  destruct (nullish payload); [reflexivity|]. simpl.
  destruct (truthy _); [|reflexivity].
  destruct (array_map _ _); reflexivity.
Qed.

Lemma chain_served_clean : forall payload w,
  reads_cleanly payload = true ->
  fetch_chain (served payload) w
  = (mkWorld (mkState (theme (app w))
                      (series_after payload (data (app w)))
                      (lookup (js "summary") (own_props payload))
                      false
                      (error (app w)))
             (env w),
     Normal tt).
Proof.
  intros payload w H. rewrite chain_parsed. unfold catch. rewrite on_json_run.
  unfold reads_cleanly in H. apply andb_true_iff in H as [Hn Ha].
  apply negb_true_iff in Hn. rewrite Hn. cbv zeta. unfold series_after.
  destruct (lookup (js "accident_by_time") (own_props payload)) as [| |b|x|str|items|props] eqn:E;
    simpl in Ha |- *; try discriminate; try reflexivity.
  - rewrite orb_false_r in Ha. apply negb_true_iff in Ha. rewrite Ha. reflexivity.
  - rewrite orb_false_r in Ha. apply negb_true_iff in Ha. rewrite Ha. reflexivity.
  - rewrite orb_false_r in Ha. apply negb_true_iff in Ha. simpl in Ha. rewrite Ha. reflexivity.
  - rewrite (mapM_to_point_clean _ Ha). reflexivity.
Qed.

Lemma chain_served_throws : forall payload w,
  reads_cleanly payload = false ->
  fetch_chain (served payload) w
  = on_failure TypeError
      (mkWorld (mkState (theme (app w)) (data (app w))
                        (if nullish payload then summary (app w)
                         else lookup (js "summary") (own_props payload))
                        (loading (app w)) (error (app w)))
               (env w)).
Proof.
  intros payload w H. rewrite chain_parsed. unfold catch. rewrite on_json_run.
  unfold reads_cleanly in H.
  destruct (nullish payload); [destruct w as [[? ? ? ? ?] ?]; reflexivity|].
  simpl in H. cbv zeta.
  destruct (lookup (js "accident_by_time") (own_props payload)) as [| |b|x|str|items|props] eqn:E;
    simpl in H |- *; try discriminate; try reflexivity.
  - rewrite orb_false_r in H. apply negb_false_iff in H. rewrite H. reflexivity.
  - rewrite orb_false_r in H. apply negb_false_iff in H. rewrite H. reflexivity.
  - rewrite orb_false_r in H. apply negb_false_iff in H. simpl in H. rewrite H. reflexivity.
  - rewrite (mapM_to_point_null _ H). reflexivity.
Qed.

(** Every failure before the payload is read goes through the catch
    handler with the state untouched. *)
Lemma chain_early_failure : forall o w,
  transport_or_parse_failure o = true ->
  exists e, fetch_chain o w = on_failure e w.
Proof.
  intros [reason | [[|] [payload | e]]] w H; simpl in H; try discriminate;
    eexists; reflexivity.
Qed.

Lemma load_state_failed : forall e w,
  load_state (app (fst (on_failure e w))) = Error load_error_message.
Proof. reflexivity. Qed.

Lemma fresh_first_world : forall st, fresh (app (first_world st)).
Proof. intros st. repeat split. Qed.

(** ** The loader on a payload with a series *)

(** C1. A payload that parses to an object whose [accident_by_time] is an
    array of records takes the loader, from the state of the first render,
    to Ready; the series is as long as the array, in the array's order, and
    its i-th point carries the i-th record's [Var1] as [time] and its
    [Freq] as [accidents], both as they are. *)
Theorem C1_series_mirrors_records :
  forall (w : world) (props : list (jsstring * value)) (items : list value),
    fresh (app w) ->
    lookup (js "accident_by_time") props = VArr items ->
    Forall (fun item => exists fields, item = VObj fields) items ->
    let s := load (served (VObj props)) w in
    load_state s = Ready (lookup (js "summary") props) (data s) /\
    length (data s) = length items /\
    forall i fields,
      nth_error items i = Some (VObj fields) ->
      nth_error (data s) i
      = Some (mkPoint (lookup (js "Var1") fields) (lookup (js "Freq") fields)).
Proof.
  intros w props items (_ & _ & _ & Herr) Habt Hrec s.
  assert (Hclean : reads_cleanly (VObj props) = true).
  { unfold reads_cleanly. simpl. rewrite Habt. simpl.
    apply forallb_forall. intros item Hin.
    rewrite Forall_forall in Hrec. destruct (Hrec item Hin) as [fields ->].
    reflexivity. }
  assert (Hs : s = mkState (theme (app w)) (map point_of items)
                           (lookup (js "summary") props) false []).
  { subst s. unfold load. rewrite (chain_served_clean _ w Hclean). simpl.
    unfold series_after. simpl. rewrite Habt, Herr. reflexivity. }
  rewrite Hs. simpl. split; [reflexivity|]. split; [apply length_map|].
  intros i fields Hi. rewrite nth_error_map, Hi. reflexivity.
Qed.

Lemma C1_series_mirrors_records_witness :
  let s := load (served sample_payload) (first_world empty_store) in
  load_state s = Ready sample_summary (data s) /\
  length (data s) = 2 /\
  forall i fields,
    nth_error sample_records i = Some (VObj fields) ->
    nth_error (data s) i
    = Some (mkPoint (lookup (js "Var1") fields) (lookup (js "Freq") fields)).
Proof.
  apply (C1_series_mirrors_records (first_world empty_store)
           [(js "summary", sample_summary); (js "accident_by_time", VArr sample_records)]
           sample_records).
  - apply fresh_first_world.
  - reflexivity.
  - repeat constructor; eexists; reflexivity.
Defined.

(** ** The loader on a failure *)

(** C2. A response whose status is not OK takes the loader to Error with
    the fixed message, whatever its body is: the body is never read. *)
Theorem C2_not_ok_is_error :
  forall (w : world) (body body' : completion value),
    let s := load (Resolved (mkResponse false body)) w in
    load_state s = Error load_error_message /\
    render_main s = Normal (ErrorView load_error_message) /\
    s = load (Resolved (mkResponse false body')) w.
Proof.
  intros w body body' s. subst s. unfold load.
  rewrite !chain_not_ok. repeat split.
Qed.

(** C3. A body that does not parse takes the loader to the same Error with
    the same message as a status that is not OK: the two states are equal,
    and so is what is rendered. *)
Theorem C3_parse_failure_same_as_http_failure :
  forall (w : world) (e : thrown) (body : completion value),
    let unparsed := load (Resolved (mkResponse true (Throw e))) w in
    let refused := load (Resolved (mkResponse false body)) w in
    load_state unparsed = Error load_error_message /\
    unparsed = refused /\
    render unparsed = render refused.
Proof.
  intros w e body unparsed refused. subst unparsed refused. unfold load.
  rewrite chain_unparsed, chain_not_ok, !on_failure_app. repeat split.
Qed.

(** ** The loader on a payload without a series *)

(** C4, the claim at the payload [null]: it parses, it has no
    [accident_by_time], and the loader ends in Error. *)
Lemma C4_null_payload_is_error :
  lookup (js "accident_by_time") (own_props VNull) = VUndefined /\
  load_state (load (served VNull) (first_world empty_store))
  = Error load_error_message.
Proof. split; reflexivity. Qed.

(** C4, amended. A payload that parses to anything but [null] and has no
    [accident_by_time] takes the loader, from the state of the first
    render, to Ready with an empty series. *)
Theorem C4_absent_series_is_ready :
  forall (w : world) (payload : value),
    fresh (app w) ->
    nullish payload = false ->
    lookup (js "accident_by_time") (own_props payload) = VUndefined ->
    load_state (load (served payload) w)
    = Ready (lookup (js "summary") (own_props payload)) [].
Proof.
  intros w payload (Hdata & _ & _ & Herr) Hnn Habs.
  assert (Hclean : reads_cleanly payload = true).
  { unfold reads_cleanly. rewrite Hnn, Habs. reflexivity. }
  unfold load. rewrite (chain_served_clean _ w Hclean). simpl.
  unfold series_after, load_state. rewrite Habs, Herr, Hdata. reflexivity.
Qed.

Lemma C4_absent_series_is_ready_witness :
  load_state (load (served payload_without_series) (first_world empty_store))
  = Ready sample_summary [].
Proof.
  apply (C4_absent_series_is_ready (first_world empty_store) payload_without_series).
  - apply fresh_first_world.
  - reflexivity.
  - reflexivity.
Defined.

(** ** Every outcome of the fetch *)

(** The chain ends in one of two ways: the second handler ran to its end,
    or the catch handler ran, after a state that differs from the one
    before at most in [summary]. *)
Lemma load_cases : forall o w,
  (settles_ready o = true /\
   exists payload,
     o = served payload /\ reads_cleanly payload = true /\
     load o w = mkState (theme (app w)) (series_after payload (data (app w)))
                        (lookup (js "summary") (own_props payload)) false
                        (error (app w)))
  \/
  (settles_ready o = false /\
   exists summ,
     load o w = mkState (theme (app w)) (data (app w)) summ false load_error_message /\
     (transport_or_parse_failure o = true -> summ = summary (app w)) /\
     (summ = summary (app w) \/
      exists payload,
        o = served payload /\ nullish payload = false /\
        reads_cleanly payload = false /\
        summ = lookup (js "summary") (own_props payload))).
Proof.
  intros o w. destruct (outcome_cases o) as [[reason ->] | [[body ->] | [[e ->] | [payload ->]]]].
  - right. split; [reflexivity|]. exists (summary (app w)). repeat split; auto.
  - right. split; [reflexivity|]. exists (summary (app w)). repeat split; auto.
  - right. split; [reflexivity|]. exists (summary (app w)). repeat split; auto.
  - destruct (reads_cleanly payload) eqn:Hc.
    + left. split; [simpl; exact Hc|]. exists payload. repeat split; auto.
      unfold load. rewrite (chain_served_clean _ w Hc). reflexivity.
    + right. split; [simpl; exact Hc|].
      exists (if nullish payload then summary (app w)
              else lookup (js "summary") (own_props payload)).
      split; [|split].
      * unfold load. rewrite (chain_served_throws _ w Hc). reflexivity.
      * simpl. discriminate.
      * destruct (nullish payload) eqn:Hn; [left; reflexivity|].
        right. exists payload. repeat split; auto.
Qed.

Lemma load_error_message_truthy : truthy (VStr load_error_message) = true.
Proof. reflexivity. Qed.


(** ** Rendering the Ready state *)

Lemma stat_card_placeholder : forall summ k,
  nullish (optional_get summ k) = true -> stat_card summ k = VStr (js "-").
Proof. intros summ k H. unfold stat_card, coalesce. rewrite H. reflexivity. Qed.

Lemma stat_card_of_falsy : forall summ k,
  truthy summ = false -> stat_card summ k = VStr (js "-").
Proof.
  intros summ k H. apply stat_card_placeholder. unfold optional_get.
  destruct summ as [| |b|x|s|items|props]; simpl in *; try reflexivity; try discriminate.
  destruct s; [reflexivity | discriminate].
Qed.

(** The guard of line 116 covers a missing [summary], not a missing
    [numericStats]: with a truthy [summary], [Object.keys] gets
    [undefined] and throws. *)
Lemma numeric_stats_without_numericStats : forall summ,
  truthy summ = true ->
  nullish (lookup (js "numericStats") (own_props summ)) = true ->
  numeric_stats summ = Throw TypeError.
Proof.
  intros summ Ht Hn. unfold numeric_stats. rewrite Ht.
  assert (Hs : nullish summ = false) by (destruct summ; simpl in *; congruence).
  unfold get at 1. rewrite Hs. simpl. unfold object_keys. rewrite Hn. reflexivity.
Qed.

Lemma render_without_numericStats_throws :
  let s := load (served payload_without_numericStats) (first_world empty_store) in
  load_state s = Ready (VObj [(js "rowsLoaded", VNum 100)]) [] /\
  render_main s = Throw TypeError.
Proof. split; reflexivity. Qed.

(** The example of the specification: Ready, the summary as served, the
    two points in order, one numeric row for [speed]. *)
Example sample_payload_renders :
  let s := load (served sample_payload) (first_world empty_store) in
  load_state s
  = Ready sample_summary
          [mkPoint (VStr (js "Morning")) (VNum 10);
           mkPoint (VStr (js "Evening")) (VNum 25)] /\
  render_main s
  = Normal (Dashboard [VNum 100; VNum 90; VNum 80; VNum 12]
                      (Stats [(js "speed", Fixed2 (VNum 45.2), Fixed2 (VNum 5.1))])
                      (data s)
                      [js "#0088FE"; js "#f91ea5"]).
Proof. split; reflexivity. Qed.


Lemma falsy_is_valid_child : forall v, truthy v = false -> valid_child v = true.
Proof. destruct v; simpl; congruence. Qed.





(** ** What an Error leaves in the state *)

(** C6, the claim at a payload whose [accident_by_time] is an object: the
    loader ends in Error, and the [summary] cell, [null] before the load,
    holds the payload's summary. *)
Lemma C6_error_keeps_the_summary :
  let w := first_world empty_store in
  let s := load (served payload_with_object_series) w in
  load_state s = Error load_error_message /\
  summary (app w) = VNull /\
  summary s = sample_summary.
Proof. repeat split. Qed.

(** C6, amended. An execution that ends in Error leaves the series and the
    theme as they were before the load, and what is displayed is the fixed
    message alone.  After a failure of the transport or of the parse, and
    after the payload [null], the summary is as it was as well; after
    every other payload, where the failure comes from reading
    [accident_by_time], the summary cell holds the payload's [summary]. *)
Theorem C6_error_leaves_series_untouched :
  forall (o : fetch_outcome) (w : world) (message : jsstring),
    fresh (app w) ->
    load_state (load o w) = Error message ->
    let s := load o w in
    message = load_error_message /\
    data s = data (app w) /\
    theme s = theme (app w) /\
    render_main s = Normal (ErrorView load_error_message) /\
    displayed s = Normal (ErrorView load_error_message) /\
    (transport_or_parse_failure o = true -> summary s = summary (app w)) /\
    (forall payload,
       o = served payload ->
       summary s = if nullish payload then summary (app w)
                   else lookup (js "summary") (own_props payload)).
Proof.
  intros o w message Hfresh Hend s. subst s.
  pose proof Hfresh as (_ & _ & _ & Herr).
  destruct (load_cases o w) as [[_ (payload & _ & _ & Hs)] | [Hnr (summ & Hs & Hearly & _)]].
  - rewrite Hs in Hend. unfold load_state in Hend. simpl in Hend.
    rewrite Herr in Hend. discriminate.
  - rewrite Hs in Hend. unfold load_state in Hend. simpl in Hend.
    injection Hend as <-.
    split; [reflexivity|]. rewrite Hs at 1 2 3 4. simpl.
    split; [reflexivity|]. split; [reflexivity|]. split; [reflexivity|].
    split; [reflexivity|]. split.
    + intros Hf. rewrite Hs. exact (Hearly Hf).
    + intros payload ->. simpl in Hnr. unfold load.
      rewrite (chain_served_throws payload w Hnr). reflexivity.
Qed.

Lemma C6_error_leaves_series_untouched_witness :
  let w := first_world empty_store in
  let s := load (served payload_with_object_series) w in
  data s = [] /\
  displayed s = Normal (ErrorView load_error_message) /\
  summary s = sample_summary.
Proof.
  destruct (C6_error_leaves_series_untouched
              (served payload_with_object_series) (first_world empty_store)
              load_error_message (fresh_first_world empty_store) eq_refl)
    as (_ & Hdata & _ & _ & Hdisplayed & _ & Hsummary).
  split; [exact Hdata|]. split; [exact Hdisplayed|].
  exact (Hsummary payload_with_object_series eq_refl).
Defined.

(** ** The three variants over time *)

Lemma one_variant_always : forall s, one_variant s.
Proof.
  intros s. unfold one_variant, in_Loading, in_Error, in_Ready.
  destruct (loading s); [left | destruct (error s) as [|u us]; right; [right | left]];
    repeat split; try congruence; intros [? ?]; congruence.
Qed.

Lemma theme_effect_app : forall w, app (fst (theme_effect w)) = app w.
Proof.
  intros w. unfold theme_effect. destruct (setItem _ _); reflexivity.
Qed.

(** A click changes the theme cell and no other. *)
Lemma on_click_app : forall w,
  app (fst (on_click w))
  = mkState (toggle (theme (app w))) (data (app w)) (summary (app w))
            (loading (app w)) (error (app w)).
Proof.
  intros w. unfold on_click, bind, toggleTheme, setTheme, update.
  rewrite theme_effect_app. reflexivity.
Qed.

Lemma load_state_ignores_theme : forall t t' d s l e,
  load_state (mkState t d s l e) = load_state (mkState t' d s l e).
Proof. reflexivity. Qed.

Lemma chain_sets_loading : forall o w, loading (load o w) = false.
Proof.
  intros o w.
  destruct (load_cases o w) as [[_ (payload & _ & _ & Hs)] | [_ (summ & Hs & _)]];
    rewrite Hs; reflexivity.
Qed.

Lemma mount_inv : forall e c, mount e = Normal c -> invariant c.
Proof.
  intros e c H. unfold mount in H.
  pose proof (theme_effect_app (mkWorld (initial_state (localStorage e)) e)) as Happ.
  destruct (theme_effect _) as [w [u | ex]]; [|discriminate].
  injection H as <-. unfold invariant. simpl in *. rewrite Happ. repeat split.
Qed.

Lemma step_inv : forall c ev c', invariant c -> Step c ev c' -> invariant c'.
Proof.
  intros c ev c' Hinv Hstep. destruct Hstep as [c o w r Hp Hrun | c w Hrun].
  - unfold invariant. simpl.
    replace w with (fst (fetch_chain o (now c))) by (rewrite Hrun; reflexivity).
    apply chain_sets_loading.
  - unfold invariant in *. simpl.
    replace w with (fst (on_click (now c))) by (rewrite Hrun; reflexivity).
    rewrite on_click_app.
    destruct (pending c); [|exact Hinv].
    destruct Hinv as (? & ? & ? & ?). repeat split; assumption.
Qed.

Lemma reachable_invariant : forall c, reachable c -> invariant c.
Proof.
  induction 1 as [e c Hm | c ev c' _ IH Hstep].
  - exact (mount_inv e c Hm).
  - exact (step_inv c ev c' IH Hstep).
Qed.

Lemma pending_iff_loading : forall c,
  invariant c -> (load_state (app (now c)) = Loading <-> pending c = true).
Proof.
  intros c Hinv. unfold invariant in Hinv. unfold load_state.
  destruct (pending c).
  - destruct Hinv as (_ & _ & -> & _). split; reflexivity.
  - rewrite Hinv. split; [|discriminate].
    destruct (truthy _); discriminate.
Qed.

(** A step out of a resolved state is a click, and leaves the variant and
    what it carries as they are. *)
Lemma resolved_is_kept : forall c ev c',
  invariant c -> Step c ev c' ->
  load_state (app (now c)) <> Loading ->
  load_state (app (now c')) = load_state (app (now c)).
Proof.
  intros c ev c' Hinv Hstep Hres. destruct Hstep as [c o w r Hp Hrun | c w Hrun].
  - exfalso. apply Hres. apply pending_iff_loading; assumption.
  - simpl. replace w with (fst (on_click (now c))) by (rewrite Hrun; reflexivity).
    rewrite on_click_app. destruct (app (now c)); reflexivity.
Qed.

Lemma resolved_is_terminal : forall c c',
  Steps c c' -> invariant c ->
  load_state (app (now c)) <> Loading ->
  load_state (app (now c')) = load_state (app (now c)).
Proof.
  induction 1 as [c | c ev c' c'' Hstep _ IH]; intros Hinv Hres; [reflexivity|].
  pose proof (resolved_is_kept c ev c' Hinv Hstep Hres) as Hkeep.
  rewrite IH; [exact Hkeep | exact (step_inv c ev c' Hinv Hstep) | congruence].
Qed.

(** C7, the claim at the payload [null]: the mounted component is in
    Loading, the fetch and the parse succeed, and the step goes to Error. *)
Lemma C7_error_after_a_successful_parse :
  let c := mounted empty_store in
  let c' := mkConfig (fst (fetch_chain (served VNull) (now c))) false in
  reachable c /\
  Step c (Settled (served VNull)) c' /\
  load_state (app (now c)) = Loading /\
  transport_or_parse_failure (served VNull) = false /\
  load_state (app (now c')) = Error load_error_message.
Proof.
  repeat split.
  - apply (reach_mount (browser empty_store)). reflexivity.
  - apply (step_settled (mounted empty_store) (served VNull)
             (fst (fetch_chain (served VNull) (now (mounted empty_store))))
             (Normal tt)); reflexivity.
Qed.

(** C7, amended. At any time exactly one of Loading, Error and Ready holds,
    and the component is in Loading exactly while the fetch is pending.  A
    click leaves the variant as it is.  The settling of the fetch is a step
    out of Loading: to Error with the fixed message on a fetch failure, a
    status that is not OK or a parse failure, and also on a parsed payload
    the second handler cannot read ([null], or an [accident_by_time] that
    is truthy and not an array without [null] elements); to Ready on every
    other parsed payload.  Once out of Loading the variant never changes
    again. *)
Theorem C7_load_state_transitions :
  forall (c : config) (ev : event) (c' : config),
    reachable c ->
    Step c ev c' ->
    let before := load_state (app (now c)) in
    let after := load_state (app (now c')) in
    one_variant (app (now c')) /\
    (before = Loading <-> pending c = true) /\
    match ev with
    | Click => after = before
    | Settled o =>
        before = Loading /\
        after <> Loading /\
        if transport_or_parse_failure o
        then after = Error load_error_message
        else exists payload,
            o = served payload /\
            after = if reads_cleanly payload
                    then Ready (lookup (js "summary") (own_props payload))
                               (series_after payload [])
                    else Error load_error_message
    end /\
    (forall c'',
       Steps c' c'' -> after <> Loading -> load_state (app (now c'')) = after).
Proof.
  intros c ev c' Hreach Hstep before after.
  pose proof (reachable_invariant c Hreach) as Hinv.
  pose proof (step_inv c ev c' Hinv Hstep) as Hinv'.
  split; [apply one_variant_always|].
  split; [apply pending_iff_loading; exact Hinv|].
  split.
  - destruct Hstep as [c o w r Hp Hrun | c w Hrun].
    + assert (Hb : before = Loading) by (apply pending_iff_loading; assumption).
      split; [exact Hb|].
      assert (Ha : after <> Loading).
      { intros Ha. apply (pending_iff_loading _ Hinv') in Ha. discriminate. }
      split; [exact Ha|].
      subst after. simpl.
      replace w with (fst (fetch_chain o (now c))) by (rewrite Hrun; reflexivity).
      fold (load o (now c)).
      unfold invariant in Hinv. rewrite Hp in Hinv.
      pose proof Hinv as (Hdata & _ & _ & Herr).
      destruct (outcome_cases o) as [[reason ->] | [[body ->] | [[e ->] | [p ->]]]];
        try reflexivity.
      simpl. exists p. split; [reflexivity|].
      destruct (reads_cleanly p) eqn:Hc; unfold load.
      * rewrite (chain_served_clean _ _ Hc). simpl.
        unfold load_state. simpl. rewrite Herr, Hdata. reflexivity.
      * rewrite (chain_served_throws _ _ Hc). reflexivity.
    + subst before after.
      destruct (load_state (app (now c))) eqn:Hb.
      * assert (Hp : pending c = true) by (apply pending_iff_loading; assumption).
        apply pending_iff_loading; assumption.
      * rewrite <- Hb. apply (resolved_is_kept c Click _ Hinv (step_click c w Hrun)). congruence.
      * rewrite <- Hb. apply (resolved_is_kept c Click _ Hinv (step_click c w Hrun)). congruence.
  - intros c'' Hsteps Hres. exact (resolved_is_terminal c' c'' Hsteps Hinv' Hres).
Qed.

Lemma reachable_mounted : reachable (mounted empty_store).
Proof. apply (reach_mount (browser empty_store)). reflexivity. Qed.

Lemma C7_load_state_transitions_witness :
  let c := mounted empty_store in
  let c' := mkConfig (fst (fetch_chain (served sample_payload) (now c))) false in
  load_state (app (now c)) = Loading /\
  load_state (app (now c'))
  = Ready sample_summary (map point_of sample_records) /\
  forall c'', Steps c' c'' ->
    load_state (app (now c'')) = Ready sample_summary (map point_of sample_records).
Proof.
  intros c c'.
  assert (Hstep : Step c (Settled (served sample_payload)) c').
  { apply (step_settled c (served sample_payload)
             (fst (fetch_chain (served sample_payload) (now c))) (Normal tt));
      reflexivity. }
  destruct (C7_load_state_transitions c (Settled (served sample_payload)) c'
              reachable_mounted Hstep)
    as (_ & _ & (Hbefore & _ & payload & Hpayload & Hafter) & Hterminal).
  split; [exact Hbefore|]. split; [reflexivity|].
  intros c'' Hsteps. apply (Hterminal c'' Hsteps). discriminate.
Defined.

(** ** The persistent store *)

(** A store that cannot be read, or that holds nothing or the empty
    string under the key, leaves the theme at ["light"]. *)
Lemma initial_theme_defaults_to_light : forall st,
  read_failure st <> None \/ stored st = None \/ stored st = Some [] ->
  initial_theme st = js "light".
Proof.
  intros [stored0 [e|] wf] H; unfold initial_theme, getItem; simpl in *;
    [reflexivity|].
  destruct H as [H | [-> | ->]]; [congruence | reflexivity | reflexivity].
Qed.

(** The write of line 63 is outside any [try]: what the store throws, the
    effect throws, at the mount and at every click. *)
Lemma write_failure_escapes : forall e ex,
  write_failure (localStorage e) = Some ex ->
  mount e = Throw ex /\
  forall s, snd (on_click (mkWorld s e)) = Throw ex.
Proof.
  intros e ex H. split.
  - unfold mount, theme_effect, setItem. simpl. rewrite H. reflexivity.
  - intros s. unfold on_click, bind, toggleTheme, setTheme, update, theme_effect, setItem.
    simpl. rewrite H. reflexivity.
Qed.

(** C8, the code at a store that answers reads with [null] and refuses
    writes, and at one that refuses both.  The read is swallowed and the
    theme is ["light"]; the write throws out of the theme effect of the
    mount, so there is no mounted component. *)
Lemma C8_refused_write_escapes_the_effect :
  initial_theme full_store = js "light" /\
  mount (browser full_store) = Throw (DOMException (js "QuotaExceededError")) /\
  initial_theme denied_store = js "light" /\
  mount (browser denied_store) = Throw (DOMException (js "SecurityError")).
Proof. repeat split. Qed.

(** ** The toggle *)

Lemma toggle_light : toggle (js "light") = js "dark".
Proof. reflexivity. Qed.

Lemma toggle_other : forall t, t <> js "light" -> toggle t = js "light".
Proof. intros t H. unfold toggle. rewrite (str_eqb_neq t (js "light") H). reflexivity. Qed.

Lemma toggle_changes : forall t, toggle t <> t.
Proof.
  intros t H. unfold toggle in H. destruct (str_eqb t (js "light")) eqn:E.
  - apply str_eqb_eq in E. subst t. discriminate.
  - rewrite <- H in E. discriminate.
Qed.

Lemma toggle_in_enum : forall t, toggle t = js "light" \/ toggle t = js "dark".
Proof. intros t. unfold toggle. destruct (str_eqb t (js "light")); auto. Qed.

(** After a click that the component survives, the store holds the theme
    the state holds, and the class of the body follows it. *)
Lemma click_persists : forall c c',
  Step c Click c' ->
  theme (app (now c')) = toggle (theme (app (now c))) /\
  stored (localStorage (env (now c'))) = Some (theme (app (now c'))) /\
  dark_mode (env (now c')) = str_eqb (theme (app (now c'))) (js "dark").
Proof.
  intros c c' Hstep. inversion Hstep as [| c0 w Hrun]; subst.
  unfold on_click, bind, toggleTheme, setTheme, update, theme_effect in Hrun.
  simpl in Hrun. destruct (setItem _ _) as [st' | ex] eqn:Hset; [|discriminate].
  injection Hrun as <-. simpl.
  unfold setItem in Hset. destruct (write_failure _); [discriminate|].
  injection Hset as <-. repeat split.
Qed.




(** C10. A click takes the theme ["light"] to ["dark"] and every other
    theme to ["light"]: the handler sets the theme cell to [toggle] of what
    it held.  So after one click the theme is ["light"] or ["dark"],
    whatever the store held when the component started. *)
Theorem C10_toggle_lands_in_the_enum :
  forall (t : jsstring) (st : storage) (w : world),
    t <> js "light" ->
    toggle (js "light") = js "dark" /\
    toggle t = js "light" /\
    theme (app (fst (on_click w))) = toggle (theme (app w)) /\
    (theme (app w) = js "light" -> theme (app (fst (on_click w))) = js "dark") /\
    (theme (app w) = t -> theme (app (fst (on_click w))) = js "light") /\
    theme (app (fst (on_click (first_world st)))) = toggle (initial_theme st) /\
    (theme (app (fst (on_click (first_world st)))) = js "light" \/
     theme (app (fst (on_click (first_world st)))) = js "dark") /\
    (theme (app (fst (on_click w))) = js "light" \/
     theme (app (fst (on_click w))) = js "dark").
Proof.
  intros t st w Ht. rewrite !on_click_app. simpl.
  split; [apply toggle_light|].
  split; [apply toggle_other; exact Ht|].
  split; [reflexivity|].
  split; [intros ->; apply toggle_light|].
  split; [intros ->; apply toggle_other; exact Ht|].
  split; [reflexivity|].
  split; apply toggle_in_enum.
Qed.

Lemma C10_toggle_lands_in_the_enum_witness :
  let w := first_world (store_holding "banana") in
  let w' := fst (on_click w) in
  toggle (js "banana") = js "light" /\
  theme (app w) = js "banana" /\
  theme (app w') = js "light" /\
  theme (app (fst (on_click w'))) = js "dark".
Proof.
  intros w w'.
  destruct (C10_toggle_lands_in_the_enum (js "banana") (store_holding "banana") w)
    as (_ & Hother & _ & _ & Hclick & _); [discriminate|].
  destruct (C10_toggle_lands_in_the_enum (js "banana") (store_holding "banana") w')
    as (_ & _ & _ & Hlight & _); [discriminate|].
  split; [exact Hother|]. split; [reflexivity|].
  split; [exact (Hclick eq_refl)|]. exact (Hlight (Hclick eq_refl)).
Defined.

(** * Further properties of the component *)

(** ** The chain as a whole *)

Lemma chain_world : forall o w,
  fetch_chain o w
  = (mkWorld (load o w)
             (mkEnviron (console (env w) ++ match logged_cause o with
                                            | Some e => [e]
                                            | None => []
                                            end)
                        (dark_mode (env w)) (localStorage (env w))),
     Normal tt).
Proof.
  intros o w. unfold load.
  destruct (outcome_cases o) as [[reason ->] | [[body ->] | [[e ->] | [p ->]]]];
    try reflexivity.
  unfold logged_cause. simpl. destruct (reads_cleanly p) eqn:Hc.
  - rewrite (chain_served_clean _ w Hc). simpl. rewrite app_nil_r.
    destruct w as [s [co dm ls]]; reflexivity.
  - rewrite (chain_served_throws _ w Hc). reflexivity.
Qed.

(** X1. Whatever the fetch settles to, the chain ends fulfilled: the catch
    handler takes every rejection and does not throw itself.  The chain
    leaves the theme, the class of the body and the store as they were. *)
Theorem X1_chain_always_fulfils :
  forall (o : fetch_outcome) (w : world),
    snd (fetch_chain o w) = Normal tt /\
    theme (app (fst (fetch_chain o w))) = theme (app w) /\
    dark_mode (env (fst (fetch_chain o w))) = dark_mode (env w) /\
    localStorage (env (fst (fetch_chain o w))) = localStorage (env w).
Proof.
  intros o w. rewrite chain_world. simpl. repeat split.
  destruct (load_cases o w) as [[_ (p & _ & _ & Hs)] | [_ (summ & Hs & _)]];
    rewrite Hs; reflexivity.
Qed.

(** X2. The console gets one entry for a chain that ends in Error, the
    cause itself (the rejection reason, the [Error] of line 39, what
    [res.json()] threw, or the [TypeError] of the second handler), and
    none for a chain that ends in Ready; the message shown is the same for
    every cause. *)
Theorem X2_cause_is_logged_once :
  forall (o : fetch_outcome) (w : world),
    console (env (fst (fetch_chain o w)))
    = console (env w) ++ match logged_cause o with
                         | Some e => [e]
                         | None => []
                         end /\
    (logged_cause o = None <-> settles_ready o = true) /\
    (settles_ready o = false -> error (load o w) = load_error_message).
Proof.
  intros o w. rewrite chain_world. simpl. split; [reflexivity|]. split.
  - destruct (outcome_cases o) as [[reason ->] | [[body ->] | [[e ->] | [p ->]]]];
      simpl; try (split; discriminate).
    destruct (reads_cleanly p); split; congruence.
  - intros Hr.
    destruct (load_cases o w) as [[Hr' _] | [_ (summ & Hs & _)]]; [congruence|].
    rewrite Hs. reflexivity.
Qed.

(** ** Arrays and values that are not what the loader expects *)

(** X3. An [accident_by_time] array with a [null] (or [undefined]) element
    gives no partial series: the loader ends in Error, the series is as it
    was, and the summary cell holds the payload's [summary]. *)
Theorem X3_null_item_gives_no_partial_series :
  forall (w : world) (props : list (jsstring * value)) (items : list value),
    fresh (app w) ->
    lookup (js "accident_by_time") props = VArr items ->
    existsb nullish items = true ->
    let s := load (served (VObj props)) w in
    load_state s = Error load_error_message /\
    data s = [] /\
    summary s = lookup (js "summary") props.
Proof.
  intros w props items (Hdata & _ & _ & _) Habt Hnull s.
  assert (Hc : reads_cleanly (VObj props) = false).
  { unfold reads_cleanly. simpl. rewrite Habt. simpl.
    apply not_true_is_false. intros Hall.
    apply existsb_exists in Hnull as (item & Hin & Hn).
    rewrite forallb_forall in Hall. specialize (Hall item Hin).
    rewrite Hn in Hall. discriminate. }
  subst s. unfold load. rewrite (chain_served_throws _ w Hc). simpl.
  repeat split. exact Hdata.
Qed.

Lemma X3_null_item_gives_no_partial_series_witness :
  let s := load (served payload_with_null_item) (first_world empty_store) in
  load_state s = Error load_error_message /\
  data s = [] /\
  summary s = sample_summary.
Proof.
  apply (X3_null_item_gives_no_partial_series (first_world empty_store)
           [(js "summary", sample_summary);
            (js "accident_by_time", VArr [record "Morning" 10; VNull])]
           [record "Morning" 10; VNull]).
  - apply fresh_first_world.
  - reflexivity.
  - reflexivity.
Defined.

(** X4. An [accident_by_time] that is not an array is taken as absent when
    it is falsy ([null], [false], [0], [NaN], the empty string) and ends
    the load in Error when it is truthy (a number, a string, [true], an
    object). *)
Theorem X4_series_field_that_is_no_array :
  forall (w : world) (payload : value),
    fresh (app w) ->
    nullish payload = false ->
    is_array (lookup (js "accident_by_time") (own_props payload)) = false ->
    load_state (load (served payload) w)
    = if truthy (lookup (js "accident_by_time") (own_props payload))
      then Error load_error_message
      else Ready (lookup (js "summary") (own_props payload)) [].
Proof.
  intros w payload (Hdata & _ & _ & Herr) Hnn Harr.
  destruct (truthy (lookup (js "accident_by_time") (own_props payload))) eqn:Ht.
  - assert (Hc : reads_cleanly payload = false).
    { unfold reads_cleanly. rewrite Hnn, Ht. simpl.
      destruct (lookup (js "accident_by_time") (own_props payload));
        try reflexivity; discriminate. }
    unfold load. rewrite (chain_served_throws _ w Hc). reflexivity.
  - assert (Hc : reads_cleanly payload = true).
    { unfold reads_cleanly. rewrite Hnn, Ht. reflexivity. }
    unfold load. rewrite (chain_served_clean _ w Hc). simpl.
    unfold load_state, series_after. simpl. rewrite Herr, Hdata.
    destruct (lookup (js "accident_by_time") (own_props payload));
      try reflexivity; discriminate.
Qed.

Lemma X4_series_field_that_is_no_array_witness :
  load_state (load (served (VObj [(js "accident_by_time", VNum 0)]))
                   (first_world empty_store))
  = Ready VUndefined [] /\
  load_state (load (served (VObj [(js "accident_by_time", VNum 5)]))
                   (first_world empty_store))
  = Error load_error_message.
Proof.
  split.
  - apply (X4_series_field_that_is_no_array (first_world empty_store)
             (VObj [(js "accident_by_time", VNum 0)]));
      [apply fresh_first_world | reflexivity | reflexivity].
  - apply (X4_series_field_that_is_no_array (first_world empty_store)
             (VObj [(js "accident_by_time", VNum 5)]));
      [apply fresh_first_world | reflexivity | reflexivity].
Defined.

(** ** Index keys *)

Lemma little_succ_not_nil : forall d, Decimal.Little.succ d <> Decimal.Nil.
Proof. destruct d; discriminate. Qed.

Lemma to_little_uint_not_nil : forall n acc,
  acc <> Decimal.Nil -> Nat.to_little_uint n acc <> Decimal.Nil.
Proof.
  induction n as [|n IH]; intros acc Hacc; simpl; [exact Hacc|].
  apply IH. apply little_succ_not_nil.
Qed.

Lemma revapp_not_nil : forall u acc,
  acc <> Decimal.Nil -> Decimal.revapp u acc <> Decimal.Nil.
Proof.
  induction u; intros acc Hacc; simpl; try exact Hacc; apply IHu; discriminate.
Qed.

Lemma to_uint_not_nil : forall n, Nat.to_uint n <> Decimal.Nil.
Proof.
  intros n. unfold Nat.to_uint, Decimal.rev.
  pose proof (to_little_uint_not_nil n Decimal.zero) as H.
  destruct (Nat.to_little_uint n Decimal.zero); simpl;
    try (apply revapp_not_nil; discriminate).
  apply H; discriminate.
Qed.

(** An index key starts with a decimal digit. *)
Lemma index_key_digit : forall i,
  exists d rest, index_key i = d :: rest /\ (48 <= d <= 57)%N.
Proof.
  intros i. unfold index_key. pose proof (to_uint_not_nil i) as H.
  destruct (Nat.to_uint i); [congruence | ..];
    simpl; eexists; eexists; (split; [reflexivity | vm_compute; split; discriminate]).
Qed.

Lemma named_key_not_index : forall k i,
  named_key k = true -> str_eqb k (index_key i) = false.
Proof.
  intros k i Hk. destruct (index_key_digit i) as (d & rest & -> & Hlo & Hhi).
  destruct k as [|c k']; [reflexivity|]. simpl in *.
  destruct (N.eqb c d) eqn:E; [|reflexivity].
  apply N.eqb_eq in E. subst c.
  apply N.leb_le in Hlo. apply N.leb_le in Hhi. rewrite Hlo, Hhi in Hk. discriminate.
Qed.

Lemma lookup_named_in_indexed : forall k (vs : list value) (idx : list nat),
  named_key k = true ->
  lookup k (combine (map index_key idx) vs) = VUndefined.
Proof.
  intros k vs idx Hk. revert vs.
  induction idx as [|i idx IH]; intros [|v vs]; simpl; try reflexivity.
  rewrite (named_key_not_index k i Hk). apply IH.
Qed.

(** Only an object has a property under a key that is no index. *)
Lemma named_property_of_non_object : forall v k,
  named_key k = true -> is_object v = false ->
  lookup k (own_props v) = VUndefined.
Proof.
  intros v k Hk Hv. destruct v; simpl in *; try reflexivity; try discriminate;
    apply lookup_named_in_indexed; exact Hk.
Qed.

(** X5. A payload that parses to an array, a number, a string or a boolean
    is no error: it has no [summary] and no [accident_by_time], the loader
    ends in Ready, and the dashboard renders with four ["-"] cards, an
    empty numeric grid and empty charts. *)
Theorem X5_payload_that_is_no_object :
  forall (w : world) (payload : value),
    fresh (app w) ->
    nullish payload = false ->
    is_object payload = false ->
    let s := load (served payload) w in
    let dash := VStr (js "-") in
    load_state s = Ready VUndefined [] /\
    render_main s
    = Normal (Dashboard [dash; dash; dash; dash] (NoStats VUndefined) [] []).
Proof.
  intros w payload (Hdata & _ & _ & Herr) Hnn Hobj s dash.
  assert (Habt : lookup (js "accident_by_time") (own_props payload) = VUndefined)
    by (apply named_property_of_non_object; [reflexivity | exact Hobj]).
  assert (Hsum : lookup (js "summary") (own_props payload) = VUndefined)
    by (apply named_property_of_non_object; [reflexivity | exact Hobj]).
  assert (Hc : reads_cleanly payload = true).
  { unfold reads_cleanly. rewrite Hnn, Habt. reflexivity. }
  assert (Hs : s = mkState (theme (app w)) [] VUndefined false []).
  { subst s. unfold load. rewrite (chain_served_clean _ w Hc). simpl.
    unfold series_after. rewrite Habt, Hsum, Herr, Hdata. reflexivity. }
  rewrite Hs. split; reflexivity.
Qed.

Lemma X5_payload_that_is_no_object_witness :
  let s := load (served (VArr [VNum 1; VNum 2])) (first_world empty_store) in
  let dash := VStr (js "-") in
  load_state s = Ready VUndefined [] /\
  render_main s
  = Normal (Dashboard [dash; dash; dash; dash] (NoStats VUndefined) [] []).
Proof.
  apply (X5_payload_that_is_no_object (first_world empty_store) (VArr [VNum 1; VNum 2])).
  - apply fresh_first_world.
  - reflexivity.
  - reflexivity.
Defined.

(** X6. The elements of [accident_by_time] are not checked to be records:
    an array of numbers, strings, booleans or arrays gives a series of the
    same length, each point with [time] and [accidents] undefined. *)
Theorem X6_items_that_are_no_records :
  forall (w : world) (props : list (jsstring * value)) (items : list value),
    fresh (app w) ->
    lookup (js "accident_by_time") props = VArr items ->
    forallb (fun item => negb (nullish item) && negb (is_object item)) items = true ->
    let s := load (served (VObj props)) w in
    load_state s = Ready (lookup (js "summary") props) (data s) /\
    data s = repeat (mkPoint VUndefined VUndefined) (length items).
Proof.
  intros w props items (_ & _ & _ & Herr) Habt Hitems s.
  assert (Hc : reads_cleanly (VObj props) = true).
  { unfold reads_cleanly. simpl. rewrite Habt. simpl.
    apply forallb_forall. intros item Hin.
    rewrite forallb_forall in Hitems. specialize (Hitems item Hin).
    apply andb_true_iff in Hitems as [Hn _]. exact Hn. }
  assert (Hs : s = mkState (theme (app w)) (map point_of items)
                           (lookup (js "summary") props) false []).
  { subst s. unfold load. rewrite (chain_served_clean _ w Hc). simpl.
    unfold series_after. simpl. rewrite Habt, Herr. reflexivity. }
  rewrite Hs. simpl. split; [reflexivity|].
  clear Hs s Hc Habt. induction items as [|item items IH]; [reflexivity|].
  simpl in Hitems. apply andb_true_iff in Hitems as [Hitem Hrest].
  apply andb_true_iff in Hitem as [_ Ho]. apply negb_true_iff in Ho.
  simpl. rewrite (IH Hrest). unfold point_of.
  rewrite (named_property_of_non_object item (js "Var1") eq_refl Ho).
  rewrite (named_property_of_non_object item (js "Freq") eq_refl Ho).
  reflexivity.
Qed.

Lemma X6_items_that_are_no_records_witness :
  let s := load (served payload_with_scalar_items) (first_world empty_store) in
  load_state s = Ready VUndefined (data s) /\
  data s = repeat (mkPoint VUndefined VUndefined) 3.
Proof.
  apply (X6_items_that_are_no_records (first_world empty_store)
           [(js "accident_by_time", VArr [VNum 1; VStr (js "x"); VBool true])]
           [VNum 1; VStr (js "x"); VBool true]).
  - apply fresh_first_world.
  - reflexivity.
  - reflexivity.
Defined.

(** ** The pie cells *)

(** X7. There is one fill for each point, the i-th being the colour at
    [i mod 4] of [COLORS]: the index never leaves the array, so no fill is
    undefined, and the fills repeat with period four. *)
Theorem X7_fills_cycle_through_the_colors :
  forall (d : list point) (i : nat),
    i < length d ->
    length (cell_fills d) = length d /\
    nth_error (cell_fills d) i = nth_error COLORS (Nat.modulo i 4) /\
    (exists c, nth_error (cell_fills d) i = Some c /\ In c COLORS) /\
    (i + 4 < length d ->
     nth_error (cell_fills d) (i + 4) = nth_error (cell_fills d) i).
Proof.
  intros d i Hi.
  assert (Hnth : forall j, j < length d ->
            nth_error (cell_fills d) j = nth_error COLORS (Nat.modulo j 4)).
  { intros j Hj. unfold cell_fills. rewrite nth_error_map, nth_error_seq.
    apply Nat.ltb_lt in Hj. rewrite Hj. cbn [option_map Nat.add].
    assert (Hm : Nat.modulo j 4 < length COLORS) by (apply Nat.mod_upper_bound; discriminate).
    symmetry. change (length COLORS) with 4 at 1. apply nth_error_nth'. exact Hm. }
  split; [unfold cell_fills; rewrite length_map, length_seq; reflexivity|].
  split; [apply Hnth; exact Hi|]. split.
  - rewrite (Hnth i Hi).
    assert (Hm : Nat.modulo i 4 < length COLORS) by (apply Nat.mod_upper_bound; discriminate).
    destruct (nth_error COLORS (Nat.modulo i 4)) as [c|] eqn:E.
    + exists c. split; [reflexivity|]. exact (nth_error_In _ _ E).
    + apply nth_error_None in E. lia.
  - intros Hi4. rewrite (Hnth (i + 4) Hi4), (Hnth i Hi).
    replace (i + 4) with (i + 1 * 4) by lia. rewrite Nat.Div0.mod_add. reflexivity.
Qed.

Lemma X7_fills_cycle_through_the_colors_witness :
  let d := repeat (mkPoint VUndefined VUndefined) 6 in
  length (cell_fills d) = 6 /\
  nth_error (cell_fills d) 1 = Some (js "#f91ea5") /\
  nth_error (cell_fills d) 5 = nth_error (cell_fills d) 1.
Proof.
  intros d.
  destruct (X7_fills_cycle_through_the_colors d 1) as (Hlen & Hnth & _ & Hperiod).
  - simpl. lia.
  - split; [exact Hlen|]. split; [exact Hnth|]. apply Hperiod. simpl. lia.
Defined.

(** ** The numeric grid and the render *)

Lemma mapM_pointwise : forall (A B : Type) (f : A -> completion B)
                              (p : A -> bool) (g : A -> B) (l : list A),
  (forall a, f a = if p a then Normal (g a) else Throw TypeError) ->
  mapM f l = if forallb p l then Normal (map g l) else Throw TypeError.
Proof.
  intros A B f p g l Hf. induction l as [|a l IH]; simpl; [reflexivity|].
  rewrite Hf. destruct (p a); simpl; [|reflexivity].
  rewrite IH. destruct (forallb p l); reflexivity.
Qed.

Lemma numeric_row_run : forall summ k,
  nullish summ = false ->
  nullish (lookup (js "numericStats") (own_props summ)) = false ->
  numeric_row summ k
  = if entry_formats (lookup k (own_props (lookup (js "numericStats") (own_props summ))))
    then Normal (numeric_row_of (lookup (js "numericStats") (own_props summ)) k)
    else Throw TypeError.
Proof.
  intros summ k Hs Hns. unfold numeric_row, entry_formats, Number_toFixed, get.
  rewrite Hs. cbv beta iota delta [cbind]. rewrite Hns. cbv beta iota.
  destruct (nullish (lookup k _)) eqn:He; cbv beta iota delta [negb andb];
    [reflexivity|].
  destruct (unconvertible (lookup (js "mean") _)); cbv beta iota; [reflexivity|].
  destruct (unconvertible (lookup (js "sd") _)); reflexivity.
Qed.

Lemma truthy_not_nullish : forall v, truthy v = true -> nullish v = false.
Proof. destruct v; simpl; congruence. Qed.

Lemma numeric_stats_run : forall summ,
  truthy summ = true ->
  numeric_stats summ
  = if grid_enumerable summ
    then Normal (Stats (map (numeric_row_of (lookup (js "numericStats") (own_props summ)))
                            (map fst (own_props (lookup (js "numericStats") (own_props summ))))))
    else Throw TypeError.
Proof.
  intros summ Ht. pose proof (truthy_not_nullish summ Ht) as Hs.
  unfold numeric_stats, grid_enumerable. rewrite Ht. unfold get at 1.
  rewrite Hs. cbv beta iota zeta delta [cbind]. unfold object_keys.
  destruct (nullish (lookup (js "numericStats") (own_props summ))) eqn:Hns;
    cbv beta iota delta [negb andb]; [reflexivity|].
  rewrite (mapM_pointwise _ _ _
             (fun k => entry_formats (lookup k (own_props (lookup (js "numericStats") (own_props summ)))))
             (numeric_row_of (lookup (js "numericStats") (own_props summ)))).
  - destruct (forallb _ _); reflexivity.
  - intros k. apply numeric_row_run; assumption.
Qed.

(** X8. With a truthy [summary], the numeric grid has one row for each own
    key of [numericStats], in the order of the keys, holding the entry's
    [mean] and [sd] formatted; evaluating it throws a [TypeError], and
    nothing else, exactly when [numericStats] is absent or [null], or one
    of its entries is [null], or [Number] cannot convert an entry's [mean]
    or [sd] (an object with an own [toString], or an array that holds
    one). *)
Theorem X8_numeric_grid :
  forall (summ : value),
    truthy summ = true ->
    let ns := lookup (js "numericStats") (own_props summ) in
    (grid_enumerable summ = true ->
     numeric_stats summ
     = Normal (Stats (map (numeric_row_of ns) (map fst (own_props ns))))) /\
    (grid_enumerable summ = false -> numeric_stats summ = Throw TypeError).
Proof.
  intros summ Ht ns. subst ns. rewrite (numeric_stats_run summ Ht).
  split; intros ->; reflexivity.
Qed.

Lemma X8_numeric_grid_witness :
  numeric_stats sample_summary
  = Normal (Stats [(js "speed", Fixed2 (VNum 45.2), Fixed2 (VNum 5.1))]) /\
  numeric_stats summary_with_null_entry = Throw TypeError /\
  numeric_stats summary_with_unconvertible_mean = Throw TypeError.
Proof.
  split; [|split].
  - apply (X8_numeric_grid sample_summary eq_refl). reflexivity.
  - apply (X8_numeric_grid summary_with_null_entry eq_refl). reflexivity.
  - apply (X8_numeric_grid summary_with_unconvertible_mean eq_refl). reflexivity.
Defined.

(** Closes the cases of a statement about what a render throws, each by
    the constructors that differ. *)
Ltac settle_render :=
  repeat split; intros;
  repeat match goal with
         | H : _ /\ _ |- _ => destruct H
         | H : true = true -> _ |- _ => specialize (H eq_refl)
         end;
  try discriminate; try congruence; auto;
  try (left; congruence); try (right; congruence).

(** X9. [App] itself throws in one situation only: in Ready, with a truthy
    [summary] whose numeric grid cannot be evaluated, and then a
    [TypeError].  What [App] returns React refuses in one situation only:
    in Ready, when the value of one of the four cards is an object or an
    array that holds one.  Loading and Error are always displayed. *)
Theorem X9_render_throws_only_on_the_grid :
  forall (s : state),
    (render_main s = Throw TypeError <->
     loading s = false /\ error s = [] /\
     truthy (summary s) = true /\ grid_enumerable (summary s) = false) /\
    (forall e, render_main s = Throw e -> e = TypeError) /\
    (displayed s = Throw InvalidChild <->
     loading s = false /\ error s = [] /\
     (truthy (summary s) = true -> grid_enumerable (summary s) = true) /\
     forallb valid_child (cards_of (summary s)) = false) /\
    (forall e, displayed s = Throw e -> e = TypeError \/ e = InvalidChild).
Proof.
  intros [t d summ l er]. unfold displayed, render_main. simpl.
  destruct l; simpl; [settle_render|].
  destruct er as [|u us]; simpl; [|settle_render].
  remember (forallb valid_child (cards_of summ)) as accepted eqn:Hacc.
  simpl in Hacc.
  destruct (truthy summ) eqn:Ht.
  - rewrite (numeric_stats_run _ Ht).
    destruct (grid_enumerable summ); simpl.
    + rewrite <- Hacc. destruct accepted; settle_render.
    + settle_render.
  - unfold numeric_stats. rewrite Ht. simpl.
    rewrite !(stat_card_of_falsy _ _ Ht) in *. simpl in *.
    rewrite (falsy_is_valid_child _ Ht). subst accepted. settle_render.
Qed.

(** A card whose field is an object: [App] returns, React refuses. *)
Example object_card_is_refused :
  let s := load (served (VObj [(js "summary", summary_with_object_field)]))
                (first_world empty_store) in
  load_state s = Ready summary_with_object_field [] /\
  render_main s
  = Normal (Dashboard [VObj [(js "n", VNum 100)]; VStr (js "-"); VStr (js "-"); VStr (js "-")]
                      (Stats []) [] []) /\
  displayed s = Throw InvalidChild.
Proof. repeat split. Qed.

(** ** The theme over time *)

Lemma load_theme : forall o w, theme (load o w) = theme (app w).
Proof.
  intros o w.
  destruct (load_cases o w) as [[_ (p & _ & _ & Hs)] | [_ (summ & Hs & _)]];
    rewrite Hs; reflexivity.
Qed.

Lemma initial_theme_not_empty : forall st, initial_theme st <> [].
Proof.
  intros [[[|u us]|] [e|] wf]; unfold initial_theme; simpl; discriminate.
Qed.

Lemma toggle_not_empty : forall t, toggle t <> [].
Proof. intros t. destruct (toggle_in_enum t) as [-> | ->]; discriminate. Qed.

Lemma mount_synced : forall e c, mount e = Normal c -> synced c.
Proof.
  intros e c H. unfold mount, theme_effect, setItem in H. simpl in H.
  destruct (write_failure (localStorage e)) eqn:Hw; [discriminate|].
  injection H as <-. unfold synced. simpl. repeat split; try exact Hw.
  apply initial_theme_not_empty.
Qed.

Lemma click_runs : forall w,
  write_failure (localStorage (env w)) = None ->
  on_click w
  = (mkWorld (mkState (toggle (theme (app w))) (data (app w)) (summary (app w))
                      (loading (app w)) (error (app w)))
             (mkEnviron (console (env w))
                        (str_eqb (toggle (theme (app w))) (js "dark"))
                        (mkStorage (Some (toggle (theme (app w))))
                                   (read_failure (localStorage (env w)))
                                   (write_failure (localStorage (env w))))),
     Normal tt).
Proof.
  intros w Hw. unfold on_click, bind, toggleTheme, setTheme, update, theme_effect, setItem.
  simpl. rewrite Hw. reflexivity.
Qed.

Lemma step_synced : forall c ev c', synced c -> Step c ev c' -> synced c'.
Proof.
  intros c ev c' (Hst & Hdm & Hw & Hne) Hstep.
  destruct Hstep as [c o w r Hp Hrun | c w Hrun].
  - rewrite chain_world in Hrun. injection Hrun as <- _.
    unfold synced. simpl. rewrite load_theme. repeat split; assumption.
  - rewrite (click_runs (now c) Hw) in Hrun. injection Hrun as <-.
    unfold synced. simpl. repeat split; [exact Hw | apply toggle_not_empty].
Qed.

Lemma reachable_synced : forall c, reachable c -> synced c.
Proof.
  induction 1 as [e c Hm | c ev c' _ IH Hstep].
  - exact (mount_synced e c Hm).
  - exact (step_synced c ev c' IH Hstep).
Qed.

(** X10. In every state the mounted component reaches (the mount, then
    clicks and the settling of the fetch in any order), the store holds
    the theme of the state, the body has the class [dark-mode] exactly
    when the theme is ["dark"], and the theme is not the empty string. *)
Theorem X10_store_and_class_follow_the_theme :
  forall (c : config),
    reachable c ->
    stored (localStorage (env (now c))) = Some (theme (app (now c))) /\
    (dark_mode (env (now c)) = true <-> theme (app (now c)) = js "dark") /\
    theme (app (now c)) <> [].
Proof.
  intros c Hreach. destruct (reachable_synced c Hreach) as (Hst & Hdm & Hw & Hne).
  split; [exact Hst|]. split; [rewrite Hdm; apply str_eqb_eq | exact Hne].
Qed.

Lemma X10_store_and_class_follow_the_theme_witness :
  let c := mounted empty_store in
  stored (localStorage (env (now c))) = Some (js "light") /\
  (dark_mode (env (now c)) = true <-> theme (app (now c)) = js "dark") /\
  theme (app (now c)) <> [].
Proof.
  apply (X10_store_and_class_follow_the_theme (mounted empty_store)).
  apply (reach_mount (browser empty_store)). reflexivity.
Defined.

(** X11. The theme survives a reload: mounting the component again on the
    store a reached state leaves behind, the store being readable, starts
    with the theme that state had. *)
Theorem X11_theme_survives_a_reload :
  forall (c : config),
    reachable c ->
    read_failure (localStorage (env (now c))) = None ->
    initial_theme (localStorage (env (now c))) = theme (app (now c)) /\
    exists c2,
      mount (browser (localStorage (env (now c)))) = Normal c2 /\
      theme (app (now c2)) = theme (app (now c)).
Proof.
  intros c Hreach Hread.
  destruct (reachable_synced c Hreach) as (Hst & _ & Hw & Hne).
  assert (Hinit : initial_theme (localStorage (env (now c))) = theme (app (now c))).
  { unfold initial_theme, getItem. rewrite Hread, Hst. simpl.
    destruct (theme (app (now c))); [congruence | reflexivity]. }
  split; [exact Hinit|].
  unfold mount, theme_effect, setItem. simpl. rewrite Hw.
  eexists. split; [reflexivity|]. simpl. exact Hinit.
Qed.

Lemma X11_theme_survives_a_reload_witness :
  let c := mkConfig (fst (on_click (now (mounted empty_store)))) true in
  theme (app (now c)) = js "dark" /\
  initial_theme (localStorage (env (now c))) = js "dark".
Proof.
  intros c.
  assert (Hreach : reachable c).
  { apply (reach_step (mounted empty_store) Click c).
    - apply (reach_mount (browser empty_store)). reflexivity.
    - apply (step_click (mounted empty_store) (fst (on_click (now (mounted empty_store))))).
      reflexivity. }
  destruct (X11_theme_survives_a_reload c Hreach eq_refl) as (Hinit & _).
  split; [reflexivity | exact Hinit].
Defined.

Lemma step_keeps_enum : forall c ev c',
  Step c ev c' -> in_enum (theme (app (now c))) -> in_enum (theme (app (now c'))).
Proof.
  intros c ev c' Hstep He. destruct Hstep as [c o w r Hp Hrun | c w Hrun]; simpl.
  - replace w with (fst (fetch_chain o (now c))) by (rewrite Hrun; reflexivity).
    fold (load o (now c)). rewrite load_theme. exact He.
  - replace w with (fst (on_click (now c))) by (rewrite Hrun; reflexivity).
    rewrite on_click_app. simpl. apply toggle_in_enum.
Qed.

Lemma steps_keep_enum : forall c c',
  Steps c c' -> in_enum (theme (app (now c))) -> in_enum (theme (app (now c'))).
Proof.
  induction 1 as [c | c ev c' c'' Hstep _ IH]; intros He; [exact He|].
  apply IH. exact (step_keeps_enum c ev c' Hstep He).
Qed.

(** X12. After the first click the theme is ["light"] or ["dark"] for
    good: no later click and no settling of the fetch takes it out of the
    two values, whatever string the store held at the start. *)
Theorem X12_theme_stays_in_the_enum :
  forall (c c' c'' : config),
    Step c Click c' ->
    Steps c' c'' ->
    in_enum (theme (app (now c''))).
Proof.
  intros c c' c'' Hclick Hsteps. apply (steps_keep_enum c' c'' Hsteps).
  destruct (click_persists c c' Hclick) as (-> & _). apply toggle_in_enum.
Qed.

Lemma X12_theme_stays_in_the_enum_witness :
  let c := mounted (store_holding "banana") in
  let c' := mkConfig (fst (on_click (now c))) true in
  let c'' := mkConfig (fst (fetch_chain (served sample_payload) (now c'))) false in
  theme (app (now c)) = js "banana" /\
  in_enum (theme (app (now c''))).
Proof.
  intros c c' c''. split; [reflexivity|].
  apply (X12_theme_stays_in_the_enum c c' c'').
  - apply (step_click c (fst (on_click (now c)))). reflexivity.
  - apply (steps_more c' (Settled (served sample_payload)) c'' c'').
    + apply (step_settled c' (served sample_payload)
               (fst (fetch_chain (served sample_payload) (now c'))) (Normal tt));
        reflexivity.
    + apply steps_none.
Defined.

(** X13. With a theme that is neither ["light"] nor ["dark"] (a string
    the store held), the body is without the class [dark-mode] and the
    button offers Light Mode; the click then makes the theme ["light"]:
    the class stays off and the button now offers Dark Mode. *)
Theorem X13_theme_outside_the_enum :
  forall (c c' : config),
    reachable c ->
    ~ in_enum (theme (app (now c))) ->
    Step c Click c' ->
    dark_mode (env (now c)) = false /\
    button_label (theme (app (now c))) = light_mode_label /\
    theme (app (now c')) = js "light" /\
    dark_mode (env (now c')) = false /\
    button_label (theme (app (now c'))) = dark_mode_label.
Proof.
  intros c c' Hreach Hout Hclick.
  destruct (reachable_synced c Hreach) as (_ & Hdm & _ & _).
  destruct (click_persists c c' Hclick) as (Ht & _ & Hdm').
  assert (Hl : theme (app (now c)) <> js "light") by (intros H; apply Hout; left; exact H).
  assert (Hd : theme (app (now c)) <> js "dark") by (intros H; apply Hout; right; exact H).
  rewrite (toggle_other _ Hl) in Ht.
  split; [rewrite Hdm; apply str_eqb_neq; exact Hd|].
  split; [unfold button_label; rewrite (str_eqb_neq _ _ Hl); reflexivity|].
  split; [exact Ht|]. rewrite Hdm', Ht. split; reflexivity.
Qed.

Lemma X13_theme_outside_the_enum_witness :
  let c := mounted (store_holding "banana") in
  let c' := mkConfig (fst (on_click (now c))) true in
  dark_mode (env (now c)) = false /\
  button_label (theme (app (now c))) = light_mode_label /\
  theme (app (now c')) = js "light" /\
  dark_mode (env (now c')) = false /\
  button_label (theme (app (now c'))) = dark_mode_label.
Proof.
  intros c c'.
  apply (X13_theme_outside_the_enum c c').
  - apply (reach_mount (browser (store_holding "banana"))). reflexivity.
  - intros [H | H]; discriminate.
  - apply (step_click c (fst (on_click (now c)))). reflexivity.
Defined.
